(** * staging_init.py: schema translation and staging of MSSQL tables into Snowflake

    A shallow embedding of [src/staging_init.py].

    - Python [str] values are Rocq [string]s.  [str.lower] is modelled on
      the ASCII letters; a non-ASCII character never lower-cases to an
      ASCII letter that occurs in one of the type names below, so the
      table lookups agree with Python's.
    - The [mapping] dict of [mssql_to_sf_type] is a [gmap string string].
    - The script body is a program in a small state-and-exception monad
      over an explicit world (the answers of the two databases and of the
      parquet writer) and an explicit process state (console output,
      open connections, written files, commands sent to Snowflake).
    - The Arrow conversion is an answer of the world as well; the
      concrete worlds answer as pyarrow does, which refuses a frame with
      duplicate column names. *)

From Stdlib Require Import Ascii String NArith List Bool.
From stdpp Require Import gmap strings list.

Local Open Scope string_scope.

(** ** Strings *)

Module PyStr.

(** [str.lower] on one character: 'A'..'Z' are shifted by 32. *)
Definition lower_ascii (a : ascii) : ascii :=
  let n := N_of_ascii a in
  if ((65 <=? n) && (n <=? 90))%N then ascii_of_N (n + 32) else a.

Fixpoint lower (s : string) : string :=
  match s with
  | EmptyString => EmptyString
  | String a r => String (lower_ascii a) (lower r)
  end.

(** [sep.join(l)] *)
Fixpoint join (sep : string) (l : list string) : string :=
  match l with
  | [] => EmptyString
  | [x] => x
  | x :: r => x +:+ sep +:+ join sep r
  end.

(** [x in l] for a list of strings. *)
Definition mem (x : string) (l : list string) : bool :=
  existsb (String.eqb x) l.

(** Formatting of a value that may be [None] inside an f-string. *)
Definition fmt (o : option string) : string :=
  match o with
  | Some s => s
  | None => "None"
  end.

(** The line feed and the double quote, which string literals here do
    not spell directly. *)
Definition nl : string := String (ascii_of_N 10) EmptyString.
Definition dq : string := String (ascii_of_N 34) EmptyString.

End PyStr.

Import PyStr.

(** ** Step 3 helpers: [mssql_to_sf_type] and [wrap_column_expr] *)

Definition mapping : gmap string string :=
  list_to_map
    [ ("int", "NUMBER");
      ("bigint", "NUMBER");
      ("smallint", "NUMBER");
      ("tinyint", "NUMBER");
      ("bit", "BOOLEAN");
      ("varchar", "VARCHAR");
      ("nvarchar", "VARCHAR");
      ("char", "VARCHAR");
      ("nchar", "VARCHAR");
      ("text", "VARCHAR");
      ("ntext", "VARCHAR");
      ("datetime", "TIMESTAMP_NTZ");
      ("datetime2", "TIMESTAMP_NTZ");
      ("smalldatetime", "TIMESTAMP_NTZ");
      ("date", "DATE");
      ("time", "TIME");
      ("float", "FLOAT");
      ("real", "FLOAT");
      ("decimal", "NUMBER");
      ("numeric", "NUMBER");
      ("money", "NUMBER");
      ("smallmoney", "NUMBER");
      ("uniqueidentifier", "VARCHAR");
      ("xml", "VARCHAR");
      ("sql_variant", "VARCHAR");
      ("hierarchyid", "VARCHAR");
      ("geometry", "VARCHAR");
      ("geography", "VARCHAR");
      ("image", "VARCHAR");
      ("binary", "VARCHAR");
      ("varbinary", "VARCHAR") ].

(** [mapping.get(mssql_type.lower(), 'VARCHAR')] *)
Definition mssql_to_sf_type (mssql_type : string) : string :=
  default "VARCHAR" (mapping !! lower mssql_type).

Definition binary_types : list string := ["image"; "varbinary"; "binary"].

Definition cast_types : list string :=
  ["xml"; "sql_variant"; "hierarchyid"; "geometry"; "geography"; "text"; "ntext"].

Definition wrap_column_expr (col dtype : string) : string :=
  let dtype := lower dtype in
  if mem dtype binary_types then
    "CONVERT(VARCHAR(MAX), [" +:+ col +:+ "], 1) AS [" +:+ col +:+ "]"
  else if mem dtype cast_types then
    "CAST([" +:+ col +:+ "] AS NVARCHAR(MAX)) AS [" +:+ col +:+ "]"
  else
    "[" +:+ col +:+ "]".

(** The destination type names that occur in [mapping]. *)
Definition sf_types : list string :=
  ["NUMBER"; "BOOLEAN"; "VARCHAR"; "TIMESTAMP_NTZ"; "DATE"; "TIME"; "FLOAT"].

(** ** Per-table translation (the pure part of the step 3 loop body) *)

(** One row of the [INFORMATION_SCHEMA.COLUMNS] answer. *)
Record ColumnRow := { COLUMN_NAME : string; DATA_TYPE : string }.

(** [snowflake_config]: the entries the script formats into commands;
    [os.getenv] gives [None] for an unset variable. *)
Record Config := { cfg_database : option string; cfg_schema : option string }.

Definition output_dir : string := "./parquet_files".

Definition column_def (row : ColumnRow) : string :=
  dq +:+ COLUMN_NAME row +:+ dq +:+ " " +:+ mssql_to_sf_type (DATA_TYPE row).

(** The list that is joined into [column_defs]. *)
Definition column_def_list (df_cols : list ColumnRow) : list string :=
  map column_def df_cols.

Definition column_defs (df_cols : list ColumnRow) : string :=
  join ("," +:+ nl +:+ "  ") (column_def_list df_cols).

Definition ddl (cfg : Config) (table : string) (df_cols : list ColumnRow) : string :=
  "CREATE OR REPLACE TABLE " +:+ fmt (cfg_schema cfg) +:+ "." +:+ dq +:+ "STG_ADW_"
    +:+ table +:+ dq +:+ " (" +:+ nl +:+ "  " +:+ column_defs df_cols +:+ nl +:+ ");".

Definition col_exprs (df_cols : list ColumnRow) : list string :=
  map (fun row => wrap_column_expr (COLUMN_NAME row) (DATA_TYPE row)) df_cols.

Definition select_sql (schema table : string) (df_cols : list ColumnRow) : string :=
  "SELECT " +:+ join ", " (col_exprs df_cols) +:+ " FROM [" +:+ schema +:+ "].["
    +:+ table +:+ "]".

Definition columns_sql (schema table : string) : string :=
  nl +:+ "        SELECT COLUMN_NAME, DATA_TYPE " +:+ nl
     +:+ "        FROM INFORMATION_SCHEMA.COLUMNS " +:+ nl
     +:+ "        WHERE TABLE_SCHEMA = '" +:+ schema +:+ "' AND TABLE_NAME = '" +:+ table
     +:+ "'" +:+ nl +:+ "    ".

(** [os.path.join(a, b)] on POSIX for a directory [a] that does not end
    in a slash: an absolute [b] replaces [a]. *)
Definition startswith_slash (b : string) : bool :=
  match b with
  | String c _ => Ascii.eqb c "/"
  | EmptyString => false
  end.

Definition path_join (a b : string) : string :=
  if startswith_slash b then b else a +:+ "/" +:+ b.

Definition parquet_file (schema table : string) : string :=
  schema +:+ "_" +:+ table +:+ ".parquet".

Definition table_path (schema table : string) : string :=
  path_join output_dir (parquet_file schema table).

(** ** The duplicate-column check *)

(** [Index.duplicated()] with the default [keep='first']: position [i] is
    marked when the same name occurs at an earlier position. *)
Fixpoint duplicated_from (seen cols : list string) : list bool :=
  match cols with
  | [] => []
  | c :: r => mem c seen :: duplicated_from (c :: seen) r
  end.

Definition duplicated (cols : list string) : list bool := duplicated_from [] cols.

(** [.any()] *)
Definition any (l : list bool) : bool := existsb id l.

(** [columns[mask].tolist()] *)
Fixpoint mask_select (cols : list string) (m : list bool) : list string :=
  match cols, m with
  | c :: r, b :: mr => if b then c :: mask_select r mr else mask_select r mr
  | _, _ => []
  end.

Definition dup_cols (cols : list string) : list string :=
  mask_select cols (duplicated cols).

(** ** Commands of the load phase *)

Definition stage_name (cfg : Config) : string :=
  "@" +:+ fmt (cfg_database cfg) +:+ "." +:+ fmt (cfg_schema cfg) +:+ ".staging_stage".

Definition full_table_name (cfg : Config) (table : string) : string :=
  fmt (cfg_database cfg) +:+ "." +:+ fmt (cfg_schema cfg) +:+ "." +:+ dq +:+ "STG_ADW_"
    +:+ table +:+ dq.

Definition put_cmd (cfg : Config) (local_path : string) : string :=
  "PUT file://" +:+ local_path +:+ " " +:+ stage_name cfg +:+ "/ AUTO_COMPRESS=TRUE;".

Definition copy_cmd (cfg : Config) (schema table : string) : string :=
  nl +:+ "        COPY INTO " +:+ full_table_name cfg table +:+ nl
     +:+ "        FROM " +:+ stage_name cfg +:+ "/" +:+ parquet_file schema table
     +:+ ".gz" +:+ nl
     +:+ "        FILE_FORMAT = (TYPE = PARQUET)" +:+ nl
     +:+ "        MATCH_BY_COLUMN_NAME = CASE_INSENSITIVE;" +:+ nl +:+ "    ".

(** ** The world and the process state *)

(** Exception classes, as far as the [except] clauses tell them apart. *)
Inductive exn := PyodbcError | SnowflakeError | OtherException.

(** The row set [pd.read_sql_query] returns for a data query. *)
Record DataFrame := { columns : list string; rows : list (list string) }.

(** What the external collaborators answer.  A call answers [None] (or
    [inr]) when it succeeds and names the exception it raises otherwise. *)
Record World := {
  snowflake_config : Config;
  os_makedirs : option exn;
  pyodbc_connect : option exn;
  mssql_conn_cursor : option exn;
  cursor_fetchall : exn + list (string * string);
  read_sql_columns : string -> exn + list ColumnRow;
  read_sql_data : string -> exn + DataFrame;
  from_pandas : DataFrame -> option exn;
  write_table : string -> DataFrame -> option exn;
  os_abspath : string -> string;
  snowflake_connect : option exn;
  sf_conn_cursor : option exn;
  sf_execute : string -> option exn
}.

(** Lines printed by the script, with the formatted values kept apart. *)
Inductive msg :=
| MConnectedMssql
| MFailedMssql (e : exn)
| MSchemaTable (schema table : string)
| MProcessing (schema table : string)
| MDuplicate (schema table : string) (dups : list string)
| MConnectedSnowflake
| MFailedSnowflake (e : exn)
| MExecutingDDL (stmt : string)
| MUploading (file stage : string)
| MPutFailed (file : string) (e : exn)
| MCopying (name : string)
| MCopyFailed (name : string) (e : exn)
| MAllDone.

(** What the process does to the outside, in order. *)
Inductive event :=
| EPrint (m : msg)
| EReadColumns (sql : string)
| EReadData (sql : string)
| EWriteTable (path : string) (df : DataFrame)
| EExecute (cmd : string).

Record State := {
  trace : list event;
  mssql_open : bool;
  sf_open : bool;
  files : gmap string DataFrame;
  sf_ddl_statements : list string
}.

Definition init : State :=
  {| trace := []; mssql_open := false; sf_open := false; files := ∅;
     sf_ddl_statements := [] |}.

(** How a piece of the script ends: normally, with an exception on its
    way up, or with [exit(code)]. *)
Inductive outcome (A : Type) :=
| Ret (a : A)
| Raise (e : exn)
| Exit (code : nat).
Arguments Ret {A} a.
Arguments Raise {A} e.
Arguments Exit {A} code.

Definition M (A : Type) : Type := State -> outcome A * State.

Definition ret {A} (a : A) : M A := fun st => (Ret a, st).

Definition bind {A B} (m : M A) (k : A -> M B) : M B :=
  fun st =>
    match m st with
    | (Ret a, st') => k a st'
    | (Raise e, st') => (Raise e, st')
    | (Exit c, st') => (Exit c, st')
    end.

Notation "'let*' x ':=' m 'in' k" := (bind m (fun x => k))
  (at level 10, x name, m at level 100, k at level 200).
Notation "m >>> k" := (bind m (fun _ => k))
  (at level 60, right associativity).

Definition raise {A} (e : exn) : M A := fun st => (Raise e, st).

(** [exit(code)]: no [except] clause of the script catches it. *)
Definition exit {A} (code : nat) : M A := fun st => (Exit code, st).

(** [try: m except <classes>: h], where [catches] tells the classes. *)
Definition try_except {A} (m : M A) (catches : exn -> bool) (h : exn -> M A) : M A :=
  fun st =>
    match m st with
    | (Raise e, st') => if catches e then h e st' else (Raise e, st')
    | r => r
    end.

(** An external call that gives no value. *)
Definition call (r : option exn) : M unit :=
  match r with
  | None => ret tt
  | Some e => raise e
  end.

(** An external call that gives a value. *)
Definition call_val {A} (r : exn + A) : M A :=
  match r with
  | inr a => ret a
  | inl e => raise e
  end.

Definition modify (f : State -> State) : M unit := fun st => (Ret tt, f st).

Definition emit (e : event) : M unit :=
  modify (fun st =>
    {| trace := trace st ++ [e]; mssql_open := mssql_open st; sf_open := sf_open st;
       files := files st; sf_ddl_statements := sf_ddl_statements st |}).

Definition print (m : msg) : M unit := emit (EPrint m).

Definition set_mssql (b : bool) : M unit :=
  modify (fun st =>
    {| trace := trace st; mssql_open := b; sf_open := sf_open st;
       files := files st; sf_ddl_statements := sf_ddl_statements st |}).

Definition set_sf (b : bool) : M unit :=
  modify (fun st =>
    {| trace := trace st; mssql_open := mssql_open st; sf_open := b;
       files := files st; sf_ddl_statements := sf_ddl_statements st |}).

Definition store_file (path : string) (df : DataFrame) : M unit :=
  modify (fun st =>
    {| trace := trace st; mssql_open := mssql_open st; sf_open := sf_open st;
       files := <[path := df]> (files st); sf_ddl_statements := sf_ddl_statements st |}).

(** [sf_ddl_statements.append(stmt)] *)
Definition append_ddl (stmt : string) : M unit :=
  modify (fun st =>
    {| trace := trace st; mssql_open := mssql_open st; sf_open := sf_open st;
       files := files st; sf_ddl_statements := sf_ddl_statements st ++ [stmt] |}).

Definition get_ddl_statements : M (list string) :=
  fun st => (Ret (sf_ddl_statements st), st).

(** [for x in l: body x] *)
Fixpoint for_each {A} (l : list A) (body : A -> M unit) : M unit :=
  match l with
  | [] => ret tt
  | x :: r => body x >>> for_each r body
  end.

(** ** The script *)

Definition is_pyodbc_error (e : exn) : bool :=
  match e with PyodbcError => true | _ => false end.

Definition is_snowflake_error (e : exn) : bool :=
  match e with SnowflakeError => true | _ => false end.

(** [except Exception] *)
Definition is_exception (e : exn) : bool := true.

(** Step 1 (lines 37-43). *)
Definition connect_mssql (w : World) : M unit :=
  try_except
    (call (pyodbc_connect w) >>>
     set_mssql true >>>
     print MConnectedMssql >>>
     call (mssql_conn_cursor w))
    is_pyodbc_error
    (fun e => print (MFailedMssql e) >>> exit 1).

(** The body of the step 3 loop (lines 109-143). *)
Definition process_table (w : World) (schema table : string) : M unit :=
  print (MProcessing schema table) >>>
  emit (EReadColumns (columns_sql schema table)) >>>
  let* df_cols := call_val (read_sql_columns w (columns_sql schema table)) in
  append_ddl (ddl (snowflake_config w) table df_cols) >>>
  emit (EReadData (select_sql schema table df_cols)) >>>
  let* df_data := call_val (read_sql_data w (select_sql schema table df_cols)) in
  (if any (duplicated (columns df_data))
   then print (MDuplicate schema table (dup_cols (columns df_data)))
   else ret tt) >>>
  call (from_pandas w df_data) >>>
  emit (EWriteTable (table_path schema table) df_data) >>>
  call (write_table w (table_path schema table) df_data) >>>
  store_file (table_path schema table) df_data.

(** Step 4, the connection (lines 146-152). *)
Definition connect_snowflake (w : World) : M unit :=
  try_except
    (call (snowflake_connect w) >>>
     set_sf true >>>
     call (sf_conn_cursor w) >>>
     print MConnectedSnowflake)
    is_snowflake_error
    (fun e => print (MFailedSnowflake e) >>> exit 1).

(** The body of the DDL loop (lines 155-156). *)
Definition execute_ddl (w : World) (stmt : string) : M unit :=
  print (MExecutingDDL stmt) >>>
  emit (EExecute stmt) >>>
  call (sf_execute w stmt).

(** The body of the load loop (lines 161-185); [continue] after a
    failed PUT skips the COPY. *)
Definition load_table (w : World) (schema table : string) : M unit :=
  let cfg := snowflake_config w in
  let local_path := os_abspath w (path_join output_dir (parquet_file schema table)) in
  let* staged :=
    try_except
      (print (MUploading (parquet_file schema table) (stage_name cfg)) >>>
       emit (EExecute (put_cmd cfg local_path)) >>>
       call (sf_execute w (put_cmd cfg local_path)) >>>
       ret true)
      is_exception
      (fun e => print (MPutFailed (parquet_file schema table) e) >>> ret false) in
  if staged : bool then
    try_except
      (print (MCopying (full_table_name cfg table)) >>>
       emit (EExecute (copy_cmd cfg schema table)) >>>
       call (sf_execute w (copy_cmd cfg schema table)))
      is_exception
      (fun e => print (MCopyFailed (full_table_name cfg table) e))
  else ret tt.

(** Lines 190-193. *)
Definition cleanup : M unit := set_mssql false >>> set_sf false.

Definition main (w : World) : M unit :=
  call (os_makedirs w) >>>
  connect_mssql w >>>
  let* tables := call_val (cursor_fetchall w) in
  for_each tables (fun '(schema, table) => print (MSchemaTable schema table)) >>>
  for_each tables (fun '(schema, table) => process_table w schema table) >>>
  connect_snowflake w >>>
  let* stmts := get_ddl_statements in
  for_each stmts (execute_ddl w) >>>
  for_each tables (fun '(schema, table) => load_table w schema table) >>>
  cleanup >>>
  print MAllDone.

(** The whole process, from a fresh state. *)
Definition run (w : World) : outcome unit * State := main w init.

(** The commands sent to Snowflake, in order. *)
Definition executed (st : State) : list string :=
  omap (fun e => match e with EExecute c => Some c | _ => None end) (trace st).

(** ** Descriptions used in the statements *)

(** [pa.Table.from_pandas] on the column index, as pyarrow behaves: a
    frame whose column names are not unique is refused with a
    [ValueError] (Duplicate column names found), an exception that no
    [except] clause of the export loop names. *)
Definition pyarrow_from_pandas (df : DataFrame) : option exn :=
  if any (duplicated (columns df)) then Some OtherException else None.

(** The worlds whose [from_pandas] refuses duplicate column names. *)
Definition refuses_duplicates (w : World) : Prop :=
  forall df, any (duplicated (columns df)) = true ->
             from_pandas w df = Some OtherException.

(** A column row with its type name lower-cased. *)
Definition lower_type (row : ColumnRow) : ColumnRow :=
  {| COLUMN_NAME := COLUMN_NAME row; DATA_TYPE := lower (DATA_TYPE row) |}.

(** The commands the load loop sends for one table: the PUT, and the COPY
    when the PUT succeeded. *)
Definition load_commands (w : World) (schema table : string) : list string :=
  let put := put_cmd (snowflake_config w) (os_abspath w (table_path schema table)) in
  put :: match sf_execute w put with
         | None => [copy_cmd (snowflake_config w) schema table]
         | Some _ => []
         end.

(** The state after a successful export of one table. *)
Definition exported (cfg : Config) (schema table : string)
    (df_cols : list ColumnRow) (df_data : DataFrame) (st : State) : State :=
  {| trace :=
       trace st
         ++ [ EPrint (MProcessing schema table);
              EReadColumns (columns_sql schema table);
              EReadData (select_sql schema table df_cols) ]
         ++ (if any (duplicated (columns df_data))
             then [EPrint (MDuplicate schema table (dup_cols (columns df_data)))]
             else [])
         ++ [EWriteTable (table_path schema table) df_data];
     mssql_open := mssql_open st;
     sf_open := sf_open st;
     files := <[table_path schema table := df_data]> (files st);
     sf_ddl_statements := sf_ddl_statements st ++ [ddl cfg table df_cols] |}.

(** The state after the successful export of a list of tables. *)
Definition export_all (cfg : Config) (cols_of : string -> string -> list ColumnRow)
    (data_of : string -> string -> DataFrame) (l : list (string * string))
    (st : State) : State :=
  foldl (fun st '(schema, table) =>
           exported cfg schema table (cols_of schema table) (data_of schema table) st)
        st l.

(** Everything but the trace is the same, and no command was sent. *)
Definition only_output (st st' : State) : Prop :=
  executed st' = executed st
  /\ mssql_open st' = mssql_open st
  /\ sf_open st' = sf_open st
  /\ files st' = files st
  /\ sf_ddl_statements st' = sf_ddl_statements st.

Definition is_execute (e : event) : bool :=
  match e with EExecute _ => true | _ => false end.

Definition is_source_io (e : event) : bool :=
  match e with
  | EReadColumns _ | EReadData _ | EWriteTable _ _ => true
  | _ => false
  end.

(** Whatever its outcome, [m] only adds events that satisfy [P] at the
    end of the trace. *)
Definition appends (P : event -> Prop) {A} (m : M A) : Prop :=
  forall st, exists t, trace (m st).2 = (trace st ++ t)%list /\ Forall P t.

(** [m] adds a part without Snowflake commands followed by a part
    without source reads and file writes. *)
Definition two_phases {A} (m : M A) : Prop :=
  forall st, exists t1 t2,
    trace (m st).2 = (trace st ++ t1 ++ t2)%list
    /\ Forall (fun e => is_execute e = false) t1
    /\ Forall (fun e => is_source_io e = false) t2.

(** [m] prints the final message last when it returns, and not at all
    otherwise. *)
Definition done_last (m : M unit) : Prop :=
  forall st, exists t,
    Forall (fun e => e <> EPrint MAllDone) t
    /\ ((m st).1 = Ret tt /\ trace (m st).2 = (trace st ++ t ++ [EPrint MAllDone])%list
        \/ (m st).1 <> Ret tt /\ trace (m st).2 = (trace st ++ t)%list).

(** ** Concrete inputs *)

Definition sch_config : Config :=
  {| cfg_database := Some "DB"; cfg_schema := Some "SCH" |}.

Definition customers_columns : list ColumnRow :=
  [ {| COLUMN_NAME := "CustomerID"; DATA_TYPE := "int" |};
    {| COLUMN_NAME := "Name"; DATA_TYPE := "nvarchar" |};
    {| COLUMN_NAME := "Photo"; DATA_TYPE := "varbinary" |} ].

Definition id_name_photo : list ColumnRow :=
  [ {| COLUMN_NAME := "id"; DATA_TYPE := "int" |};
    {| COLUMN_NAME := "name"; DATA_TYPE := "nvarchar" |};
    {| COLUMN_NAME := "photo"; DATA_TYPE := "varbinary" |} ].



Definition one_column : list ColumnRow := [ {| COLUMN_NAME := "id"; DATA_TYPE := "int" |} ].

Definition one_column_frame : DataFrame := {| columns := ["id"]; rows := [["1"]] |}.

Definition two_tables : list (string * string) := [("dbo", "A"); ("dbo", "B")].

(** A world in which every table has one [int] column and every call
    succeeds, but for the four answers that are left open: the data
    query, the table list, the Snowflake connection and the execution of
    a command. *)
Definition world_with
    (data : string -> exn + DataFrame) (tables : list (string * string))
    (sf_connect : option exn) (execute : string -> option exn) : World :=
  {| snowflake_config := sch_config;
     os_makedirs := None;
     pyodbc_connect := None;
     mssql_conn_cursor := None;
     cursor_fetchall := inr tables;
     read_sql_columns := fun _ => inr one_column;
     read_sql_data := data;
     from_pandas := pyarrow_from_pandas;
     write_table := fun _ _ => None;
     os_abspath := fun p => "/job/" +:+ p;
     snowflake_connect := sf_connect;
     sf_conn_cursor := None;
     sf_execute := execute |}.

(** A row set whose two columns are both named [x]. *)
Definition xx_frame : DataFrame := {| columns := ["x"; "x"]; rows := [] |}.

(** The column listing that gives such a row set: the name [x] twice. *)
Definition xx_columns : list ColumnRow :=
  [ {| COLUMN_NAME := "x"; DATA_TYPE := "int" |};
    {| COLUMN_NAME := "x"; DATA_TYPE := "int" |} ].

(** One table [dbo.T] whose columns are listed as [x], [x]; the query
    built from that listing gives [xx_frame]; every other call succeeds
    and pyarrow behaves as it does. *)
Definition xx_world : World :=
  {| snowflake_config := sch_config;
     os_makedirs := None;
     pyodbc_connect := None;
     mssql_conn_cursor := None;
     cursor_fetchall := inr [("dbo", "T")];
     read_sql_columns := fun _ => inr xx_columns;
     read_sql_data := fun _ => inr xx_frame;
     from_pandas := pyarrow_from_pandas;
     write_table := fun _ _ => None;
     os_abspath := fun p => "/job/" +:+ p;
     snowflake_connect := None;
     sf_conn_cursor := None;
     sf_execute := fun _ => None |}.

(** Everything succeeds: both tables are exported, created, staged and
    loaded, and both connections are closed at the end. *)
Definition all_fine : World :=
  world_with (fun _ => inr one_column_frame) two_tables None (fun _ => None).

(** The data query of [dbo.B] fails. *)
Definition export_of_B_fails : World :=
  world_with
    (fun sql => if String.eqb sql (select_sql "dbo" "B" one_column)
                then inl OtherException else inr one_column_frame)
    two_tables None (fun _ => None).

(** The DDL statement of [dbo.A] is rejected by Snowflake. *)
Definition ddl_of_A_fails : World :=
  world_with (fun _ => inr one_column_frame) two_tables None
    (fun cmd => if String.eqb cmd (ddl sch_config "A" one_column)
                then Some SnowflakeError else None).

(** The connection to Snowflake fails after MSSQL has been connected. *)
Definition snowflake_unreachable : World :=
  world_with (fun _ => inr one_column_frame) two_tables (Some SnowflakeError)
    (fun _ => None).

(** Two source tables of the same name in different schemas: the second
    DDL statement replaces the table the first one created, and both
    files are copied into it. *)
Definition same_name_tables : World :=
  world_with (fun _ => inr one_column_frame) [("Person", "Address"); ("Sales", "Address")]
    None (fun _ => None).

(** [pyodbc.connect] raises [pyodbc.Error]. *)
Definition mssql_unreachable : World :=
  {| snowflake_config := sch_config;
     os_makedirs := None;
     pyodbc_connect := Some PyodbcError;
     mssql_conn_cursor := None;
     cursor_fetchall := inr two_tables;
     read_sql_columns := fun _ => inr one_column;
     read_sql_data := fun _ => inr one_column_frame;
     from_pandas := pyarrow_from_pandas;
     write_table := fun _ _ => None;
     os_abspath := fun p => "/job/" +:+ p;
     snowflake_connect := None;
     sf_conn_cursor := None;
     sf_execute := fun _ => None |}.

(** [pyodbc.connect] succeeds and [mssql_conn.cursor()] raises
    [pyodbc.Error]. *)
Definition mssql_cursor_broken : World :=
  {| snowflake_config := sch_config;
     os_makedirs := None;
     pyodbc_connect := None;
     mssql_conn_cursor := Some PyodbcError;
     cursor_fetchall := inr two_tables;
     read_sql_columns := fun _ => inr one_column;
     read_sql_data := fun _ => inr one_column_frame;
     from_pandas := pyarrow_from_pandas;
     write_table := fun _ _ => None;
     os_abspath := fun p => "/job/" +:+ p;
     snowflake_connect := None;
     sf_conn_cursor := None;
     sf_execute := fun _ => None |}.

(** * Properties *)

Ltac in_literal_list :=
  repeat first [ apply list_elem_of_here | apply list_elem_of_further ].

Ltac run_script :=
  unfold bind, try_except, print, emit, append_ddl, store_file, set_mssql, set_sf,
    modify, call, call_val, ret, raise, exit, get_ddl_statements; simpl.

(** ** Strings *)

Lemma lower_ascii_idemp a : lower_ascii (lower_ascii a) = lower_ascii a.
Proof. destruct a as [[] [] [] [] [] [] [] []]; reflexivity. Qed.

Lemma lower_idemp s : lower (lower s) = lower s.
Proof.
  induction s as [|a s IH]; simpl.
  - reflexivity.
  - rewrite lower_ascii_idemp, IH. reflexivity.
Qed.

Lemma append_cons (a : ascii) (s1 s2 : string) :
  String a s1 +:+ s2 = String a (s1 +:+ s2).
Proof. reflexivity. Qed.

Lemma append_assoc (s1 s2 s3 : string) : (s1 +:+ s2) +:+ s3 = s1 +:+ s2 +:+ s3.
Proof.
  induction s1 as [|a s1 IH].
  - reflexivity.
  - rewrite !append_cons, IH. reflexivity.
Qed.

Lemma length_append (s1 s2 : string) :
  String.length (s1 +:+ s2) = String.length s1 + String.length s2.
Proof.
  induction s1 as [|a s1 IH].
  - reflexivity.
  - rewrite append_cons. simpl. rewrite IH. reflexivity.
Qed.

(** A common suffix can be cancelled. *)
Lemma append_inj_l (x s1 s2 : string) : s1 +:+ x = s2 +:+ x -> s1 = s2.
Proof.
  revert s2. induction s1 as [|a s1 IH]; intros [|b s2] H.
  - reflexivity.
  - apply (f_equal String.length) in H. rewrite !length_append in H.
    simpl in H. lia.
  - apply (f_equal String.length) in H. rewrite !length_append in H.
    simpl in H. lia.
  - rewrite !append_cons in H. injection H as -> H. rewrite (IH _ H). reflexivity.
Qed.

Lemma mem_true x l : mem x l = true <-> x ∈ l.
Proof.
  unfold mem. rewrite existsb_exists. split.
  - intros (y & Hy & E). apply String.eqb_eq in E. subst y.
    apply list_elem_of_In. exact Hy.
  - intros H. exists x. split.
    + apply list_elem_of_In. exact H.
    + apply String.eqb_refl.
Qed.

Lemma mem_false x l : mem x l = false <-> x ∉ l.
Proof.
  rewrite <- mem_true. destruct (mem x l); split; intros H; done.
Qed.

(** ** [mssql_to_sf_type] and [wrap_column_expr] *)

Lemma mapping_values k v : mapping !! k = Some v -> v ∈ sf_types.
Proof.
  intros H. apply elem_of_list_to_map_2 in H.
  unfold sf_types.
  repeat (apply elem_of_cons in H as [H|H];
          [ injection H as _ ->; in_literal_list | ]).
  inversion H.
Qed.

Lemma cast_not_binary x : x ∈ cast_types -> mem x binary_types = false.
Proof.
  intros H. unfold cast_types in H.
  repeat (apply elem_of_cons in H as [->|H]; [reflexivity|]).
  inversion H.
Qed.

(** C1.  For every column name [c] and source type [t], matched after
    lower-casing: a binary-family type gives the hex conversion aliased
    to [c], an opaque or legacy large text type gives the wide-string
    cast aliased to [c], and every other type, known or not, gives the
    bracketed column name.  The function is total. *)
Theorem wrap_column_expr_branches (c t : string) :
  (lower t ∈ ["image"; "varbinary"; "binary"] ->
     wrap_column_expr c t
     = "CONVERT(VARCHAR(MAX), [" +:+ c +:+ "], 1) AS [" +:+ c +:+ "]")
  /\ (lower t ∈ ["xml"; "sql_variant"; "hierarchyid"; "geometry"; "geography";
                 "text"; "ntext"] ->
     wrap_column_expr c t = "CAST([" +:+ c +:+ "] AS NVARCHAR(MAX)) AS [" +:+ c +:+ "]")
  /\ (lower t ∉ ["image"; "varbinary"; "binary"] ->
      lower t ∉ ["xml"; "sql_variant"; "hierarchyid"; "geometry"; "geography";
                 "text"; "ntext"] ->
     wrap_column_expr c t = "[" +:+ c +:+ "]").
Proof.
  unfold wrap_column_expr.
  split; [|split].
  - intros Hb. apply mem_true in Hb. fold binary_types in Hb. rewrite Hb. reflexivity.
  - intros Hc.
    fold cast_types in Hc. rewrite (cast_not_binary _ Hc).
    apply mem_true in Hc. rewrite Hc. reflexivity.
  - intros Hb Hc. apply mem_false in Hb, Hc.
    fold binary_types in Hb. fold cast_types in Hc. rewrite Hb, Hc. reflexivity.
Qed.

Lemma wrap_column_expr_branches_witness :
  wrap_column_expr "Photo" "VARBINARY"
    = "CONVERT(VARCHAR(MAX), [Photo], 1) AS [Photo]"
  /\ wrap_column_expr "Doc" "Xml" = "CAST([Doc] AS NVARCHAR(MAX)) AS [Doc]"
  /\ wrap_column_expr "Stamp" "rowversion" = "[Stamp]".
Proof.
  split; [|split].
  - apply (proj1 (wrap_column_expr_branches "Photo" "VARBINARY")).
    simpl. in_literal_list.
  - apply (proj1 (proj2 (wrap_column_expr_branches "Doc" "Xml"))).
    simpl. in_literal_list.
  - apply (proj2 (proj2 (wrap_column_expr_branches "Stamp" "rowversion")));
      apply mem_false; reflexivity.
Defined.

(** C2.  [mssql_to_sf_type] is a total function of its argument that
    returns one of the destination type names, gives the same answer for
    an input and for its lower-cased form (so INT and int agree), and
    gives VARCHAR whenever the lower-cased input is not a key of the
    table. *)
Theorem mssql_to_sf_type_total_case_insensitive (s : string) :
  mssql_to_sf_type s = mssql_to_sf_type (lower s)
  /\ mssql_to_sf_type "INT" = mssql_to_sf_type "int"
  /\ mssql_to_sf_type s ∈ sf_types
  /\ (mapping !! lower s = None -> mssql_to_sf_type s = "VARCHAR").
Proof.
  unfold mssql_to_sf_type. rewrite lower_idemp.
  split; [reflexivity|]. split; [vm_compute; reflexivity|]. split.
  - destruct (mapping !! lower s) as [v|] eqn:E; simpl.
    + eapply mapping_values. exact E.
    + unfold sf_types. in_literal_list.
  - intros ->. reflexivity.
Qed.

Lemma mssql_to_sf_type_total_case_insensitive_witness :
  mssql_to_sf_type "RowVersion" = "VARCHAR".
Proof.
  apply (proj2 (proj2 (proj2 (mssql_to_sf_type_total_case_insensitive "RowVersion")))).
  vm_compute. reflexivity.
Defined.

Lemma binary_types_varchar x : x ∈ binary_types -> mapping !! x = Some "VARCHAR".
Proof.
  intros H. unfold binary_types in H.
  repeat (apply elem_of_cons in H as [->|H]; [vm_compute; reflexivity|]).
  inversion H.
Qed.

Lemma cast_types_varchar x : x ∈ cast_types -> mapping !! x = Some "VARCHAR".
Proof.
  intros H. unfold cast_types in H.
  repeat (apply elem_of_cons in H as [->|H]; [vm_compute; reflexivity|]).
  inversion H.
Qed.

(** C10.  Whenever [wrap_column_expr] does not return the plain bracketed
    column name for a type, that is for every type of the hex-encoding
    branch and of the wide-string cast branch, [mssql_to_sf_type] of the
    same type is VARCHAR. *)
Theorem encoded_columns_are_varchar (c t : string) :
  wrap_column_expr c t <> "[" +:+ c +:+ "]" ->
  mssql_to_sf_type t = "VARCHAR".
Proof.
  unfold wrap_column_expr, mssql_to_sf_type. intros H.
  destruct (mem (lower t) binary_types) eqn:Hb.
  - apply mem_true in Hb. rewrite (binary_types_varchar _ Hb). reflexivity.
  - destruct (mem (lower t) cast_types) eqn:Hc.
    + apply mem_true in Hc. rewrite (cast_types_varchar _ Hc). reflexivity.
    + contradiction H. reflexivity.
Qed.

Lemma encoded_columns_are_varchar_witness :
  mssql_to_sf_type "Geography" = "VARCHAR".
Proof.
  apply (encoded_columns_are_varchar "Shape" "Geography").
  vm_compute. discriminate.
Defined.

(** ** The two outputs of the translation *)



(** ** The worked example of the specification *)



(** ** Destination names *)

Lemma path_join_output_dir_inj (a b : string) :
  path_join output_dir a = path_join output_dir b -> a = b.
Proof.
  unfold path_join.
  destruct (startswith_slash a) eqn:Ha, (startswith_slash b) eqn:Hb; intros H.
  - exact H.
  - destruct a as [|c a]; [discriminate Ha|]. simpl in Ha.
    apply Ascii.eqb_eq in Ha. subst c. discriminate H.
  - destruct b as [|c b]; [discriminate Hb|]. simpl in Hb.
    apply Ascii.eqb_eq in Hb. subst c. discriminate H.
  - apply String.app_inj in H. apply String.app_inj in H. exact H.
Qed.

Lemma table_path_inj (s1 s2 t : string) : table_path s1 t = table_path s2 t -> s1 = s2.
Proof.
  unfold table_path, parquet_file. intros H.
  apply path_join_output_dir_inj in H.
  eapply append_inj_l. exact H.
Qed.

(** C9.  The destination table is named from the source table name
    alone: for two tables with the same name in different schemas, the
    DDL statements and the COPY commands name the same destination table
    STG_ADW_<table>, while the exported files have different paths. *)
Theorem destination_ignores_source_schema
    (cfg : Config) (s1 s2 t : string) (cols1 cols2 : list ColumnRow) :
  s1 <> s2 ->
  let target := dq +:+ "STG_ADW_" +:+ t +:+ dq in
  (exists body1 body2,
      ddl cfg t cols1
      = "CREATE OR REPLACE TABLE " +:+ fmt (cfg_schema cfg) +:+ "." +:+ target +:+ body1
      /\ ddl cfg t cols2
      = "CREATE OR REPLACE TABLE " +:+ fmt (cfg_schema cfg) +:+ "." +:+ target +:+ body2)
  /\ full_table_name cfg t
     = fmt (cfg_database cfg) +:+ "." +:+ fmt (cfg_schema cfg) +:+ "." +:+ target
  /\ (exists from1 from2,
      copy_cmd cfg s1 t
      = nl +:+ "        COPY INTO " +:+ full_table_name cfg t +:+ from1
      /\ copy_cmd cfg s2 t
      = nl +:+ "        COPY INTO " +:+ full_table_name cfg t +:+ from2)
  /\ table_path s1 t <> table_path s2 t.
Proof.
  intros Hne target. subst target. split; [|split; [|split]].
  - unfold ddl.
    exists (" (" +:+ nl +:+ "  " +:+ column_defs cols1 +:+ nl +:+ ");"),
           (" (" +:+ nl +:+ "  " +:+ column_defs cols2 +:+ nl +:+ ");").
    rewrite !append_assoc. split; reflexivity.
  - reflexivity.
  - unfold copy_cmd. eexists _, _. split; reflexivity.
  - intros H. apply Hne. eapply table_path_inj. exact H.
Qed.

Lemma destination_ignores_source_schema_witness :
  full_table_name sch_config "Address" = "DB.SCH." +:+ dq +:+ "STG_ADW_Address" +:+ dq
  /\ table_path "Person" "Address" <> table_path "Sales" "Address".
Proof.
  assert (Hne : "Person" <> "Sales") by discriminate.
  pose proof (destination_ignores_source_schema sch_config "Person" "Sales" "Address"
                customers_columns id_name_photo Hne) as (_ & Hname & _ & Hpath).
  split; [exact Hname | exact Hpath].
Defined.

(** ** The duplicate-column check *)

Lemma duplicated_from_spec (seen cols : list string) (y : string) :
  y ∈ mask_select cols (duplicated_from seen cols) <->
  exists j, cols !! j = Some y /\ (y ∈ seen \/ exists i, i < j /\ cols !! i = Some y).
Proof.
  revert seen. induction cols as [|c r IH]; intros seen.
  - simpl. split.
    + intros H. inversion H.
    + intros (j & Hj & _). rewrite lookup_nil in Hj. discriminate.
  - change (duplicated_from seen (c :: r))
      with (mem c seen :: duplicated_from (c :: seen) r).
    change (mask_select (c :: r) (mem c seen :: duplicated_from (c :: seen) r))
      with (if mem c seen
            then c :: mask_select r (duplicated_from (c :: seen) r)
            else mask_select r (duplicated_from (c :: seen) r)).
    split.
    + intros H.
      assert (Hcase : (y = c /\ mem c seen = true)
                      \/ y ∈ mask_select r (duplicated_from (c :: seen) r)).
      { destruct (mem c seen); [|right; exact H].
        apply elem_of_cons in H as [->|H]; [left; split; reflexivity | right; exact H]. }
      destruct Hcase as [[-> Hs]|Hr].
      * exists 0. split; [reflexivity|]. left. apply mem_true. exact Hs.
      * apply IH in Hr as (j & Hj & Hwhere). exists (S j). split; [exact Hj|].
        destruct Hwhere as [Hin|(i & Hij & Hi)].
        -- apply elem_of_cons in Hin as [->|Hin].
           ++ right. exists 0. split; [lia | reflexivity].
           ++ left. exact Hin.
        -- right. exists (S i). split; [lia | exact Hi].
    + intros (j & Hj & Hwhere). destruct j as [|j].
      * simpl in Hj. injection Hj as ->.
        destruct Hwhere as [Hin|(i & Hij & _)]; [|lia].
        apply mem_true in Hin. rewrite Hin. apply list_elem_of_here.
      * simpl in Hj.
        assert (Hr : y ∈ mask_select r (duplicated_from (c :: seen) r)).
        { apply IH. exists j. split; [exact Hj|].
          destruct Hwhere as [Hin|(i & Hij & Hi)].
          - left. apply list_elem_of_further. exact Hin.
          - destruct i as [|i].
            + simpl in Hi. injection Hi as ->. left. apply list_elem_of_here.
            + right. exists i. split; [lia | exact Hi]. }
        destruct (mem c seen); [apply list_elem_of_further|]; exact Hr.
Qed.

(** [dup_cols] names exactly the columns that occur at two positions. *)
Lemma dup_cols_spec (cols : list string) (y : string) :
  y ∈ dup_cols cols <->
  exists i j, i < j /\ cols !! i = Some y /\ cols !! j = Some y.
Proof.
  unfold dup_cols, duplicated. rewrite duplicated_from_spec. split.
  - intros (j & Hj & [Hin|(i & Hij & Hi)]); [inversion Hin|].
    exists i, j. auto.
  - intros (i & j & Hij & Hi & Hj). exists j. split; [exact Hj|].
    right. exists i. auto.
Qed.

Lemma mask_select_any (cols : list string) (m : list bool) (y : string) :
  y ∈ mask_select cols m -> any m = true.
Proof.
  revert m. induction cols as [|c r IH]; intros [|b m] H; simpl in H;
    try solve [inversion H].
  destruct b; [reflexivity|]. apply (IH m H).
Qed.

Lemma duplicated_any (cols : list string) (y : string) :
  y ∈ dup_cols cols -> any (duplicated cols) = true.
Proof. apply mask_select_any. Qed.

Example dup_cols_example :
  duplicated ["x"; "y"; "x"; "x"; "y"; "z"] = [false; false; true; true; true; false]
  /\ dup_cols ["x"; "y"; "x"; "x"; "y"; "z"] = ["x"; "x"; "y"].
Proof. split; reflexivity. Qed.

(** ** The export of one table *)

(** With a [from_pandas] that refuses duplicate column names: when the
    row set of a table has the same column name at two positions,
    [process_table] prints the duplicate-column warning, which lists
    every name that occurs twice, and then fails in the conversion; the
    write is not attempted and no file is stored. *)
Lemma duplicate_columns_abort_export
    (w : World) (schema table : string) (st : State)
    (df_cols : list ColumnRow) (df_data : DataFrame) (x : string) (i j : nat) :
  refuses_duplicates w ->
  read_sql_columns w (columns_sql schema table) = inr df_cols ->
  read_sql_data w (select_sql schema table df_cols) = inr df_data ->
  i < j ->
  columns df_data !! i = Some x ->
  columns df_data !! j = Some x ->
  let r := process_table w schema table st in
  x ∈ dup_cols (columns df_data)
  /\ (forall y, y ∈ dup_cols (columns df_data) <->
                exists a b, a < b /\ columns df_data !! a = Some y
                            /\ columns df_data !! b = Some y)
  /\ r.1 = Raise OtherException
  /\ trace r.2
     = (trace st
         ++ [ EPrint (MProcessing schema table);
              EReadColumns (columns_sql schema table);
              EReadData (select_sql schema table df_cols);
              EPrint (MDuplicate schema table (dup_cols (columns df_data))) ])%list
  /\ files r.2 = files st.
Proof.
  intros Hpa Hcols Hdata Hij Hi Hj r.
  assert (Hx : x ∈ dup_cols (columns df_data)).
  { apply dup_cols_spec. exists i, j. auto. }
  split; [exact Hx|]. split; [intros y; apply dup_cols_spec|].
  subst r. unfold process_table. run_script.
  rewrite Hcols. simpl. rewrite Hdata. simpl.
  rewrite (duplicated_any _ _ Hx). simpl.
  rewrite (Hpa df_data (duplicated_any _ _ Hx)). simpl.
  rewrite <- !app_assoc. simpl. repeat split; reflexivity.
Qed.

(** ** Exceptions and loops *)

Section Propagation.

Context {A : Type} (body : A -> M unit).

(** A [for] loop whose body raises stops there: the exception leaves the
    loop and the remaining elements are not visited. *)
Lemma for_each_raise (l1 l2 : list A) (x : A) (e : exn) (st st1 st2 : State) :
  for_each l1 body st = (Ret tt, st1) ->
  body x st1 = (Raise e, st2) ->
  for_each (l1 ++ x :: l2) body st = (Raise e, st2).
Proof.
  revert st. induction l1 as [|y l1 IH]; intros st Hl1 Hx; simpl in *.
  - injection Hl1 as ->. unfold bind. rewrite Hx. reflexivity.
  - unfold bind in *. destruct (body y st) as [[[]|e'|c] st']; try discriminate Hl1.
    apply IH; assumption.
Qed.

(** A loop over bodies that all return visits every element. *)
Lemma for_each_app (l1 l2 : list A) (st st1 : State) :
  for_each l1 body st = (Ret tt, st1) ->
  for_each (l1 ++ l2) body st = for_each l2 body st1.
Proof.
  revert st. induction l1 as [|y l1 IH]; intros st Hl1; simpl in *.
  - injection Hl1 as ->. reflexivity.
  - unfold bind in *. destruct (body y st) as [[[]|e'|c] st']; try discriminate Hl1.
    apply IH; assumption.
Qed.

End Propagation.

Section Steps.

Variable w : World.

(** The PUT and COPY calls of the load loop are guarded: [load_table]
    returns whatever Snowflake answers. *)
Lemma load_table_returns (schema table : string) (st : State) :
  exists st', load_table w schema table st = (Ret tt, st').
Proof.
  unfold load_table. run_script.
  destruct (sf_execute w (put_cmd _ _)) as [e|]; simpl.
  - eexists. reflexivity.
  - destruct (sf_execute w (copy_cmd _ _ _)) as [e|]; simpl; eexists; reflexivity.
Qed.

(** The DDL call is not: [execute_ddl] passes the exception on. *)
Lemma execute_ddl_raises (stmt : string) (e : exn) (st : State) :
  sf_execute w stmt = Some e ->
  (execute_ddl w stmt st).1 = Raise e.
Proof. intros H. unfold execute_ddl. run_script. rewrite H. reflexivity. Qed.

(** Neither are the queries of the export. *)
Lemma process_table_raises (schema table : string) (df_cols : list ColumnRow)
    (e : exn) (st : State) :
  read_sql_columns w (columns_sql schema table) = inr df_cols ->
  read_sql_data w (select_sql schema table df_cols) = inl e ->
  (process_table w schema table st).1 = Raise e.
Proof.
  intros Hc Hd. unfold process_table. run_script. rewrite Hc. simpl. rewrite Hd.
  reflexivity.
Qed.

(** A failed Snowflake connection exits with status 1 and leaves the
    MSSQL connection as it was. *)
Lemma connect_snowflake_exits (st : State) :
  snowflake_connect w = Some SnowflakeError ->
  (connect_snowflake w st).1 = Exit 1
  /\ mssql_open (connect_snowflake w st).2 = mssql_open st.
Proof.
  intros H. unfold connect_snowflake. run_script. rewrite H. simpl.
  split; reflexivity.
Qed.

End Steps.

(** ** Runs on concrete worlds *)

Lemma xx_world_refuses_duplicates : refuses_duplicates xx_world.
Proof. intros df H. simpl. unfold pyarrow_from_pandas. rewrite H. reflexivity. Qed.

Lemma duplicate_columns_abort_export_witness :
  (process_table xx_world "dbo" "T" init).1 = Raise OtherException
  /\ files (process_table xx_world "dbo" "T" init).2 = ∅.
Proof.
  assert (H01 : 0 < 1) by lia.
  destruct (duplicate_columns_abort_export xx_world "dbo" "T" init xx_columns xx_frame
              "x" 0 1 xx_world_refuses_duplicates eq_refl eq_refl H01 eq_refl eq_refl)
    as (_ & _ & Hraise & _ & Hfiles).
  split; [exact Hraise | exact Hfiles].
Defined.

(** C4 on the code: for the table [dbo.T] whose row set has two columns
    named [x], the script prints the warning that names [x] and then
    ends: [pa.Table.from_pandas] refuses the row set, nothing catches the
    exception, so no file is written for the table, the write is not
    even attempted, and nothing is sent to Snowflake. *)
Theorem duplicate_columns_end_the_run :
  (run xx_world).1 = Raise OtherException
  /\ trace (run xx_world).2
     = [ EPrint MConnectedMssql;
         EPrint (MSchemaTable "dbo" "T");
         EPrint (MProcessing "dbo" "T");
         EReadColumns (columns_sql "dbo" "T");
         EReadData "SELECT [x], [x] FROM [dbo].[T]";
         EPrint (MDuplicate "dbo" "T" ["x"]) ]
  /\ files (run xx_world).2 !! table_path "dbo" "T" = None
  /\ executed (run xx_world).2 = [].
Proof. repeat split; vm_compute; reflexivity. Qed.

Example all_fine_run :
  (run all_fine).1 = Ret tt
  /\ executed (run all_fine).2
     = [ ddl sch_config "A" one_column;
         ddl sch_config "B" one_column;
         put_cmd sch_config "/job/./parquet_files/dbo_A.parquet";
         copy_cmd sch_config "dbo" "A";
         put_cmd sch_config "/job/./parquet_files/dbo_B.parquet";
         copy_cmd sch_config "dbo" "B" ]
  /\ mssql_open (run all_fine).2 = false
  /\ sf_open (run all_fine).2 = false.
Proof. repeat split; vm_compute; reflexivity. Qed.

(** C5 on the code: with tables [dbo.A], [dbo.B] and a failing data query
    for [dbo.B], the exception leaves the export loop and ends the
    script: the file of [dbo.A] has been written, but no command at all
    is sent to Snowflake (no DDL, no PUT, no COPY for [dbo.A]), the
    Snowflake connection is never opened and the final message is not
    printed. *)
Theorem export_failure_ends_the_run :
  (run export_of_B_fails).1 = Raise OtherException
  /\ files (run export_of_B_fails).2 !! table_path "dbo" "A" = Some one_column_frame
  /\ executed (run export_of_B_fails).2 = []
  /\ sf_open (run export_of_B_fails).2 = false
  /\ last (trace (run export_of_B_fails).2)
     = Some (EReadData (select_sql "dbo" "B" one_column)).
Proof. repeat split; vm_compute; reflexivity. Qed.

(** C6 on the code: when the DDL statement of [dbo.A] fails, the
    exception leaves the DDL loop and ends the script: the statement of
    [dbo.B] is never issued, nothing is staged or loaded, and no failure
    message is printed. *)
Theorem ddl_failure_ends_the_run :
  (run ddl_of_A_fails).1 = Raise SnowflakeError
  /\ sf_ddl_statements (run ddl_of_A_fails).2
     = [ddl sch_config "A" one_column; ddl sch_config "B" one_column]
  /\ executed (run ddl_of_A_fails).2 = [ddl sch_config "A" one_column]
  /\ last (trace (run ddl_of_A_fails).2)
     = Some (EExecute (ddl sch_config "A" one_column)).
Proof. repeat split; vm_compute; reflexivity. Qed.

(** C8 on the code: when the Snowflake connection fails, the script
    prints the failure and calls [exit(1)] while the MSSQL connection is
    still open; the cleanup lines are not reached. *)
Theorem snowflake_failure_leaves_mssql_open :
  (run snowflake_unreachable).1 = Exit 1
  /\ mssql_open (run snowflake_unreachable).2 = true
  /\ sf_open (run snowflake_unreachable).2 = false
  /\ last (trace (run snowflake_unreachable).2)
     = Some (EPrint (MFailedSnowflake SnowflakeError)).
Proof. repeat split; vm_compute; reflexivity. Qed.

(** ** The end of the run *)

Lemma bind_Ret_inv {A B} (m : M A) (k : A -> M B) (st st' : State) (b : B) :
  bind m k st = (Ret b, st') ->
  exists a st1, m st = (Ret a, st1) /\ k a st1 = (Ret b, st').
Proof.
  unfold bind. destruct (m st) as [[a|e|c] st1]; intros H; try discriminate H.
  exists a, st1. split; [reflexivity | exact H].
Qed.

(** A run that reaches the last line has closed both connections. *)
Lemma normal_completion_closes_connections (w : World) (st : State) :
  run w = (Ret tt, st) -> mssql_open st = false /\ sf_open st = false.
Proof.
  unfold run, main. intros H.
  do 9 (apply bind_Ret_inv in H as (? & ? & _ & H)).
  unfold cleanup, bind, set_mssql, set_sf, print, emit, modify in H. simpl in H.
  injection H as <-.
  split; reflexivity.
Qed.

Example same_name_tables_run :
  executed (run same_name_tables).2
  = [ ddl sch_config "Address" one_column;
      ddl sch_config "Address" one_column;
      put_cmd sch_config "/job/./parquet_files/Person_Address.parquet";
      copy_cmd sch_config "Person" "Address";
      put_cmd sch_config "/job/./parquet_files/Sales_Address.parquet";
      copy_cmd sch_config "Sales" "Address" ]
  /\ files (run same_name_tables).2 !! "./parquet_files/Person_Address.parquet"
     = Some one_column_frame
  /\ files (run same_name_tables).2 !! "./parquet_files/Sales_Address.parquet"
     = Some one_column_frame.
Proof. repeat split; vm_compute; reflexivity. Qed.

(** * Further properties *)

(** ** The type table *)

Ltac preimage_cases H :=
  let E := fresh "E" in
  destruct (mapping !! _) as [?v|] eqn:E in H; simpl in H; [subst | discriminate H];
  unfold mapping in E; apply elem_of_list_to_map_2 in E;
  repeat (apply elem_of_cons in E as [E|E];
          [ first [ discriminate E
                  | injection E as ->; solve [reflexivity | in_literal_list] ] | ]);
  apply elem_of_nil in E; contradiction.

Ltac image_cases H :=
  repeat (apply elem_of_cons in H as [->|H]; [vm_compute; reflexivity|]);
  apply elem_of_nil in H; contradiction.

Lemma varchar_otherwise (k : string) :
  default "VARCHAR" (mapping !! k) = "VARCHAR" <->
  k ∉ ["bit"; "int"; "bigint"; "smallint"; "tinyint"; "decimal"; "numeric"; "money";
       "smallmoney"; "datetime"; "datetime2"; "smalldatetime"; "date"; "time"; "float";
       "real"].
Proof.
  split.
  - intros H Hin.
    repeat (apply elem_of_cons in Hin as [->|Hin]; [vm_compute in H; discriminate H|]).
    apply elem_of_nil in Hin. contradiction.
  - intros H. destruct (mapping !! k) as [v|] eqn:E; simpl; [|reflexivity].
    unfold mapping in E. apply elem_of_list_to_map_2 in E.
    repeat (apply elem_of_cons in E as [E|E];
            [ injection E as -> ->;
              first [reflexivity | exfalso; apply H; in_literal_list] | ]).
    apply elem_of_nil in E. contradiction.
Qed.

(** X1.  The source types behind each destination type: a column is
    typed BOOLEAN, NUMBER, TIMESTAMP_NTZ, DATE, TIME or FLOAT exactly
    when its lower-cased source type is one of the listed names, and it
    is typed VARCHAR exactly when its lower-cased source type is none of
    these names, whether it is a key of the table or not. *)
Theorem mssql_to_sf_type_families (s : string) :
  (mssql_to_sf_type s = "BOOLEAN" <-> lower s = "bit")
  /\ (mssql_to_sf_type s = "NUMBER" <->
      lower s ∈ ["int"; "bigint"; "smallint"; "tinyint"; "decimal"; "numeric";
                 "money"; "smallmoney"])
  /\ (mssql_to_sf_type s = "TIMESTAMP_NTZ" <->
      lower s ∈ ["datetime"; "datetime2"; "smalldatetime"])
  /\ (mssql_to_sf_type s = "DATE" <-> lower s = "date")
  /\ (mssql_to_sf_type s = "TIME" <-> lower s = "time")
  /\ (mssql_to_sf_type s = "FLOAT" <-> lower s ∈ ["float"; "real"])
  /\ (mssql_to_sf_type s = "VARCHAR" <->
      lower s ∉ ["bit"; "int"; "bigint"; "smallint"; "tinyint"; "decimal"; "numeric";
                 "money"; "smallmoney"; "datetime"; "datetime2"; "smalldatetime";
                 "date"; "time"; "float"; "real"]).
Proof.
  unfold mssql_to_sf_type. generalize (lower s). intros k.
  refine (conj _ (conj _ (conj _ (conj _ (conj _ (conj _ _))))));
    [ split; intros H;
      lazymatch type of H with
      | default _ _ = _ => preimage_cases H
      | k = _ => subst k; vm_compute; reflexivity
      | _ ∈ _ => image_cases H
      end ..
    | exact (varchar_otherwise k) ].
Qed.

Lemma wrap_column_expr_lower (c t : string) :
  wrap_column_expr c (lower t) = wrap_column_expr c t.
Proof. unfold wrap_column_expr. rewrite lower_idemp. reflexivity. Qed.

Lemma mssql_to_sf_type_lower (t : string) :
  mssql_to_sf_type (lower t) = mssql_to_sf_type t.
Proof. unfold mssql_to_sf_type. rewrite lower_idemp. reflexivity. Qed.

(** X2.  The DDL statement and the projection query of a table do not
    depend on the letter case of the source type names: lower-casing the
    type of every column leaves both strings unchanged. *)
Theorem translation_ignores_type_case
    (cfg : Config) (schema table : string) (df_cols : list ColumnRow) :
  ddl cfg table (map lower_type df_cols) = ddl cfg table df_cols
  /\ select_sql schema table (map lower_type df_cols) = select_sql schema table df_cols.
Proof.
  unfold ddl, select_sql, column_defs, column_def_list, col_exprs.
  rewrite !map_map.
  assert (Hd : map (fun row => column_def (lower_type row)) df_cols
               = map column_def df_cols).
  { apply map_ext. intros row. unfold column_def, lower_type. simpl.
    rewrite mssql_to_sf_type_lower. reflexivity. }
  assert (He : map (fun row => wrap_column_expr (COLUMN_NAME (lower_type row))
                                 (DATA_TYPE (lower_type row))) df_cols
               = map (fun row => wrap_column_expr (COLUMN_NAME row) (DATA_TYPE row))
                   df_cols).
  { apply map_ext. intros row. simpl. apply wrap_column_expr_lower. }
  rewrite Hd, He. split; reflexivity.
Qed.

(** ** File names *)

(** X3.  The file name joins schema and table with an underscore and
    nothing tells the two apart: the tables [s_t.u] and [s.t_u], which
    differ in their schema, are exported to the same path. *)
Theorem parquet_file_collision (s t u : string) :
  s +:+ "_" +:+ t <> s
  /\ parquet_file (s +:+ "_" +:+ t) u = parquet_file s (t +:+ "_" +:+ u)
  /\ table_path (s +:+ "_" +:+ t) u = table_path s (t +:+ "_" +:+ u).
Proof.
  assert (E : parquet_file (s +:+ "_" +:+ t) u = parquet_file s (t +:+ "_" +:+ u)).
  { unfold parquet_file. rewrite !append_assoc. reflexivity. }
  split; [|split; [exact E|]].
  - intros H. apply (f_equal String.length) in H. rewrite !length_append in H.
    simpl in H. lia.
  - unfold table_path. rewrite E. reflexivity.
Qed.

(** X4.  Within one schema, tables of different names are exported to
    different paths. *)
Theorem table_path_inj_table (s t1 t2 : string) :
  t1 <> t2 -> table_path s t1 <> table_path s t2.
Proof.
  intros Hne H. apply Hne. unfold table_path, parquet_file in H.
  apply path_join_output_dir_inj in H.
  apply String.app_inj in H. apply String.app_inj in H.
  eapply append_inj_l. exact H.
Qed.

Lemma table_path_inj_table_witness :
  table_path "dbo" "Orders" <> table_path "dbo" "OrderLines".
Proof. apply table_path_inj_table. discriminate. Defined.

(** ** The duplicate-column check, without duplicates *)

Lemma any_duplicated_from (seen cols : list string) :
  any (duplicated_from seen cols) = false <->
  NoDup cols /\ forall x, x ∈ cols -> x ∉ seen.
Proof.
  revert seen. induction cols as [|c r IH]; intros seen.
  - simpl. split; [intros _|reflexivity]. split; [constructor|].
    intros x Hx. inversion Hx.
  - change (any (duplicated_from seen (c :: r)))
      with (mem c seen || any (duplicated_from (c :: seen) r)).
    rewrite orb_false_iff, IH, mem_false, NoDup_cons. split.
    + intros (Hc & Hnd & Hseen). split; [split; [|exact Hnd]|].
      * intros Hin. apply (Hseen c Hin). apply list_elem_of_here.
      * intros x Hx. apply elem_of_cons in Hx as [->|Hx]; [exact Hc|].
        intros Hs. apply (Hseen x Hx). apply list_elem_of_further. exact Hs.
    + intros ((Hc & Hnd) & Hseen). split; [|split; [exact Hnd|]].
      * apply Hseen. apply list_elem_of_here.
      * intros x Hx Hs. apply elem_of_cons in Hs as [->|Hs]; [exact (Hc Hx)|].
        apply (Hseen x); [apply list_elem_of_further; exact Hx | exact Hs].
Qed.

Lemma mask_select_all_false (cols : list string) (m : list bool) :
  any m = false -> mask_select cols m = [].
Proof.
  revert m. induction cols as [|c r IH]; intros [|b m] H; try reflexivity.
  simpl in H. apply orb_false_iff in H as [Hb Hm]. unfold id in Hb. subst b.
  simpl. apply IH. exact Hm.
Qed.

Lemma length_duplicated_from (seen cols : list string) :
  length (duplicated_from seen cols) = length cols.
Proof.
  revert seen. induction cols as [|c r IH]; intros seen.
  - reflexivity.
  - simpl. rewrite IH. reflexivity.
Qed.

Lemma mask_select_nil (cols : list string) (m : list bool) :
  length m = length cols -> mask_select cols m = [] -> any m = false.
Proof.
  revert m. induction cols as [|c r IH]; intros [|b m] Hlen H;
    try reflexivity; try discriminate Hlen.
  simpl in H. destruct b; [discriminate H|]. simpl. apply IH; [|exact H].
  simpl in Hlen. lia.
Qed.

(** X5.  The duplicate check is exact: the mask has one entry per
    column, no entry is set exactly when the column names are pairwise
    different, and exactly then the list of duplicated names is empty,
    so that no warning is printed for a row set without duplicates. *)
Theorem no_duplicates_no_warning (cols : list string) :
  (any (duplicated cols) = false <-> NoDup cols)
  /\ (dup_cols cols = [] <-> NoDup cols)
  /\ length (duplicated cols) = length cols.
Proof.
  assert (H1 : any (duplicated cols) = false <-> NoDup cols).
  { unfold duplicated. rewrite any_duplicated_from. split; [intros [H _]; exact H|].
    intros H. split; [exact H|]. intros x _ Hx. inversion Hx. }
  split; [exact H1|]. split; [|apply length_duplicated_from].
  rewrite <- H1. unfold dup_cols. split.
  - apply mask_select_nil. apply length_duplicated_from.
  - apply mask_select_all_false.
Qed.

(** ** The first connection *)

(** X8.  When [pyodbc.connect] raises, nothing else happens: a
    [pyodbc.Error] is reported and the script exits with status 1, any
    other exception leaves the script uncaught; in both cases no
    connection is open, nothing was read, written or sent. *)
Theorem mssql_connect_failure (w : World) (e : exn) :
  os_makedirs w = None ->
  pyodbc_connect w = Some e ->
  run w
  = if is_pyodbc_error e
    then (Exit 1,
          {| trace := [EPrint (MFailedMssql e)]; mssql_open := false; sf_open := false;
             files := ∅; sf_ddl_statements := [] |})
    else (Raise e, init).
Proof.
  intros Hm Hc. unfold run, main, connect_mssql. run_script. rewrite Hm. simpl.
  rewrite Hc. simpl. destruct e; reflexivity.
Qed.

Lemma mssql_connect_failure_witness :
  (run mssql_unreachable).1 = Exit 1
  /\ trace (run mssql_unreachable).2 = [EPrint (MFailedMssql PyodbcError)].
Proof.
  rewrite (mssql_connect_failure mssql_unreachable PyodbcError eq_refl eq_refl).
  split; reflexivity.
Defined.

(** X9.  When the connection is made and [mssql_conn.cursor()] raises
    [pyodbc.Error], the script has already printed that it is connected,
    prints the failure and exits with status 1 while the MSSQL connection
    is still open. *)
Theorem mssql_cursor_failure (w : World) :
  os_makedirs w = None ->
  pyodbc_connect w = None ->
  mssql_conn_cursor w = Some PyodbcError ->
  run w
  = (Exit 1,
     {| trace := [EPrint MConnectedMssql; EPrint (MFailedMssql PyodbcError)];
        mssql_open := true; sf_open := false; files := ∅; sf_ddl_statements := [] |}).
Proof.
  intros Hm Hc Hk. unfold run, main, connect_mssql. run_script. rewrite Hm. simpl.
  rewrite Hc. simpl. rewrite Hk. reflexivity.
Qed.

Lemma mssql_cursor_failure_witness :
  (run mssql_cursor_broken).1 = Exit 1 /\ mssql_open (run mssql_cursor_broken).2 = true.
Proof.
  rewrite (mssql_cursor_failure mssql_cursor_broken eq_refl eq_refl eq_refl).
  split; reflexivity.
Defined.

(** ** A successful export *)

Lemma bind_step {A B} (m : M A) (k : A -> M B) (st st1 : State) (a : A) :
  m st = (Ret a, st1) -> bind m k st = k a st1.
Proof. intros H. unfold bind. rewrite H. reflexivity. Qed.

Lemma process_table_exported
    (w : World) (schema table : string) (st : State)
    (df_cols : list ColumnRow) (df_data : DataFrame) :
  read_sql_columns w (columns_sql schema table) = inr df_cols ->
  read_sql_data w (select_sql schema table df_cols) = inr df_data ->
  from_pandas w df_data = None ->
  write_table w (table_path schema table) df_data = None ->
  process_table w schema table st
  = (Ret tt, exported (snowflake_config w) schema table df_cols df_data st).
Proof.
  intros Hc Hd Hp Hw. unfold process_table, exported. run_script.
  rewrite Hc. simpl. rewrite Hd. simpl.
  destruct (any (duplicated (columns df_data))); simpl;
    rewrite Hp; simpl; rewrite Hw; simpl;
    rewrite <- !app_assoc; reflexivity.
Qed.

Lemma executed_exported cfg schema table df_cols df_data st :
  executed (exported cfg schema table df_cols df_data st) = executed st.
Proof.
  unfold executed, exported. simpl. rewrite !omap_app.
  destruct (any (duplicated (columns df_data))); simpl; apply app_nil_r.
Qed.

(** X6.  When both queries, the conversion and the write succeed,
    [process_table] returns normally; it has stored the row set under the
    path of the table and touched no other file, appended the DDL
    statement of the table to the collected statements, sent nothing to
    Snowflake and left the connections as they were; its output is the
    progress line, the two queries, the warning when there are duplicate
    column names, and the write. *)
Theorem process_table_ok
    (w : World) (schema table : string) (st : State)
    (df_cols : list ColumnRow) (df_data : DataFrame) :
  read_sql_columns w (columns_sql schema table) = inr df_cols ->
  read_sql_data w (select_sql schema table df_cols) = inr df_data ->
  from_pandas w df_data = None ->
  write_table w (table_path schema table) df_data = None ->
  let r := process_table w schema table st in
  r.1 = Ret tt
  /\ files r.2 !! table_path schema table = Some df_data
  /\ (forall p, p <> table_path schema table -> files r.2 !! p = files st !! p)
  /\ sf_ddl_statements r.2
     = (sf_ddl_statements st ++ [ddl (snowflake_config w) table df_cols])%list
  /\ executed r.2 = executed st
  /\ mssql_open r.2 = mssql_open st
  /\ sf_open r.2 = sf_open st
  /\ trace r.2
     = (trace st
        ++ [ EPrint (MProcessing schema table);
             EReadColumns (columns_sql schema table);
             EReadData (select_sql schema table df_cols) ]
        ++ (if any (duplicated (columns df_data))
            then [EPrint (MDuplicate schema table (dup_cols (columns df_data)))]
            else [])
        ++ [EWriteTable (table_path schema table) df_data])%list.
Proof.
  intros Hc Hd Hp Hw r. subst r.
  rewrite (process_table_exported w schema table st df_cols df_data Hc Hd Hp Hw).
  cbn [fst snd]. rewrite executed_exported. unfold exported. simpl.
  repeat split; try reflexivity.
  - apply lookup_insert_eq.
  - intros p Hp'. apply lookup_insert_ne. congruence.
Qed.

Lemma process_table_ok_witness :
  files (process_table all_fine "dbo" "A" init).2 !! table_path "dbo" "A"
  = Some one_column_frame
  /\ sf_ddl_statements (process_table all_fine "dbo" "A" init).2
     = [ddl sch_config "A" one_column].
Proof.
  destruct (process_table_ok all_fine "dbo" "A" init one_column one_column_frame
              eq_refl eq_refl eq_refl eq_refl)
    as (_ & Hfile & _ & Hddl & _).
  split; [exact Hfile | exact Hddl].
Defined.

(** ** The load loop *)

Lemma load_table_commands (w : World) (schema table : string) (st : State) :
  let r := load_table w schema table st in
  r.1 = Ret tt
  /\ executed r.2 = (executed st ++ load_commands w schema table)%list
  /\ mssql_open r.2 = mssql_open st
  /\ sf_open r.2 = sf_open st
  /\ files r.2 = files st
  /\ sf_ddl_statements r.2 = sf_ddl_statements st.
Proof.
  unfold load_table, load_commands, table_path. run_script.
  destruct (sf_execute w (put_cmd _ _)) as [e|]; simpl.
  - unfold executed. simpl. rewrite !omap_app. simpl. rewrite <- !app_assoc.
    repeat split; reflexivity.
  - destruct (sf_execute w (copy_cmd _ _ _)) as [e|]; simpl;
      unfold executed; simpl; rewrite !omap_app; simpl; rewrite <- !app_assoc;
      repeat split; reflexivity.
Qed.

Lemma load_loop_facts (w : World) (tables : list (string * string)) (st : State) :
  let r := for_each tables (fun '(schema, table) => load_table w schema table) st in
  r.1 = Ret tt
  /\ executed r.2
     = (executed st
        ++ flat_map (fun '(schema, table) => load_commands w schema table) tables)%list
  /\ mssql_open r.2 = mssql_open st
  /\ sf_open r.2 = sf_open st
  /\ files r.2 = files st
  /\ sf_ddl_statements r.2 = sf_ddl_statements st.
Proof.
  revert st. induction tables as [|[schema table] tables IH]; intros st.
  - simpl. rewrite app_nil_r. repeat split; reflexivity.
  - cbn [for_each flat_map].
    destruct (load_table_commands w schema table st) as (Hr & He & Hm & Hs & Hf & Hd).
    destruct (load_table w schema table st) as [o st1] eqn:E. cbn [fst snd] in *.
    subst o. rewrite (bind_step _ _ _ _ _ E).
    destruct (IH st1) as (Hr' & He' & Hm' & Hs' & Hf' & Hd'). cbv zeta.
    rewrite He', He, Hm', Hm, Hs', Hs, Hf', Hf, Hd', Hd, <- app_assoc.
    repeat split; try reflexivity. exact Hr'.
Qed.

(** X7.  The load loop never fails, whatever Snowflake answers: for
    every list of tables it returns normally, having sent for each table
    in order its PUT command, followed by its COPY command exactly when
    the PUT succeeded; a failed PUT or COPY does not keep the following
    tables from being loaded.  The loop leaves connections, files and
    collected statements untouched. *)
Theorem load_loop_isolated (w : World) (tables : list (string * string)) (st : State) :
  let r := for_each tables (fun '(schema, table) => load_table w schema table) st in
  r.1 = Ret tt
  /\ executed r.2
     = (executed st
        ++ flat_map (fun '(schema, table) =>
             put_cmd (snowflake_config w) (os_abspath w (table_path schema table))
             :: match sf_execute w
                        (put_cmd (snowflake_config w)
                           (os_abspath w (table_path schema table))) with
                | None => [copy_cmd (snowflake_config w) schema table]
                | Some _ => []
                end) tables)%list
  /\ mssql_open r.2 = mssql_open st
  /\ sf_open r.2 = sf_open st
  /\ files r.2 = files st
  /\ sf_ddl_statements r.2 = sf_ddl_statements st.
Proof. exact (load_loop_facts w tables st). Qed.

(** ** A run in which every call succeeds *)

Section ExportAll.

Variables (cfg : Config) (cols_of : string -> string -> list ColumnRow)
  (data_of : string -> string -> DataFrame).

Lemma export_all_facts (l : list (string * string)) (st : State) :
  let st' := export_all cfg cols_of data_of l st in
  executed st' = executed st
  /\ mssql_open st' = mssql_open st
  /\ sf_open st' = sf_open st
  /\ sf_ddl_statements st'
     = (sf_ddl_statements st
        ++ map (fun '(schema, table) => ddl cfg table (cols_of schema table)) l)%list
  /\ forall p, is_Some (files st' !! p) <->
               is_Some (files st !! p)
               \/ exists schema table, (schema, table) ∈ l /\ p = table_path schema table.
Proof.
  revert st. induction l as [|[schema table] l IH]; intros st; cbv zeta.
  - simpl. rewrite app_nil_r. repeat split; try reflexivity.
    + intros H. left. exact H.
    + intros [H|(s & t & Hin & _)]; [exact H | inversion Hin].
  - change (export_all cfg cols_of data_of ((schema, table) :: l) st)
      with (export_all cfg cols_of data_of l
              (exported cfg schema table (cols_of schema table)
                 (data_of schema table) st)).
    destruct (IH (exported cfg schema table (cols_of schema table)
                    (data_of schema table) st)) as (He & Hm & Hs & Hd & Hf).
    rewrite He, Hm, Hs, Hd, executed_exported. simpl. rewrite <- app_assoc.
    repeat split; try reflexivity.
    + intros H. apply Hf in H as [H|(s & t & Hin & ->)].
      * simpl in H. apply lookup_insert_is_Some in H as [<-|[_ H]].
        -- right. exists schema, table. split; [apply list_elem_of_here | reflexivity].
        -- left. exact H.
      * right. exists s, t. split; [apply list_elem_of_further; exact Hin | reflexivity].
    + intros H. apply Hf. destruct H as [H|(s & t & Hin & ->)].
      * left. simpl. apply lookup_insert_is_Some'. right. exact H.
      * apply elem_of_cons in Hin as [Heq|Hin].
        -- injection Heq as -> ->. left. simpl. apply lookup_insert_is_Some'. left.
           reflexivity.
        -- right. exists s, t. split; [exact Hin | reflexivity].
Qed.

End ExportAll.

Section AllSucceed.

Variables (w : World) (tables : list (string * string))
  (cols_of : string -> string -> list ColumnRow)
  (data_of : string -> string -> DataFrame).

Hypothesis Hmakedirs : os_makedirs w = None.
Hypothesis Hconnect : pyodbc_connect w = None.
Hypothesis Hcursor : mssql_conn_cursor w = None.
Hypothesis Htables : cursor_fetchall w = inr tables.
Hypothesis Hcols : forall schema table, (schema, table) ∈ tables ->
  read_sql_columns w (columns_sql schema table) = inr (cols_of schema table).
Hypothesis Hdata : forall schema table, (schema, table) ∈ tables ->
  read_sql_data w (select_sql schema table (cols_of schema table))
  = inr (data_of schema table).
Hypothesis Hpandas : forall schema table, (schema, table) ∈ tables ->
  from_pandas w (data_of schema table) = None.
Hypothesis Hwrite : forall schema table, (schema, table) ∈ tables ->
  write_table w (table_path schema table) (data_of schema table) = None.
Hypothesis Hsf : snowflake_connect w = None.
Hypothesis Hsfcursor : sf_conn_cursor w = None.
Hypothesis Hddl : forall schema table, (schema, table) ∈ tables ->
  sf_execute w (ddl (snowflake_config w) table (cols_of schema table)) = None.

Lemma export_loop (l : list (string * string)) (st : State) :
  l ⊆ tables ->
  for_each l (fun '(schema, table) => process_table w schema table) st
  = (Ret tt, export_all (snowflake_config w) cols_of data_of l st).
Proof.
  revert st. induction l as [|[schema table] l IH]; intros st Hsub.
  - reflexivity.
  - assert (Hin : (schema, table) ∈ tables) by (apply Hsub, list_elem_of_here).
    cbn [for_each].
    rewrite (bind_step _ _ _ _ _
               (process_table_exported w schema table st _ _ (Hcols _ _ Hin) (Hdata _ _ Hin)
                  (Hpandas _ _ Hin) (Hwrite _ _ Hin))).
    apply IH. intros x Hx. apply Hsub, list_elem_of_further, Hx.
Qed.

Lemma print_loop (l : list (string * string)) (st : State) :
  exists st',
    for_each l (fun '(schema, table) => print (MSchemaTable schema table)) st
    = (Ret tt, st')
    /\ only_output st st'.
Proof.
  revert st. induction l as [|[schema table] l IH]; intros st.
  - exists st. split; [reflexivity|]. unfold only_output. repeat split; reflexivity.
  - cbn [for_each]. unfold bind at 1, print at 1, emit at 1, modify at 1.
    destruct (IH {| trace := trace st ++ [EPrint (MSchemaTable schema table)];
                    mssql_open := mssql_open st; sf_open := sf_open st;
                    files := files st; sf_ddl_statements := sf_ddl_statements st |})
      as (st' & Hrun & He & Hm & Hs & Hf & Hd).
    exists st'. split; [exact Hrun|]. unfold only_output.
    rewrite He, Hm, Hs, Hf, Hd. unfold executed. simpl. rewrite omap_app. simpl.
    rewrite app_nil_r. repeat split; reflexivity.
Qed.

Lemma ddl_loop (stmts : list string) (st : State) :
  (forall d, d ∈ stmts -> sf_execute w d = None) ->
  exists st',
    for_each stmts (execute_ddl w) st = (Ret tt, st')
    /\ executed st' = (executed st ++ stmts)%list
    /\ mssql_open st' = mssql_open st
    /\ sf_open st' = sf_open st
    /\ files st' = files st
    /\ sf_ddl_statements st' = sf_ddl_statements st.
Proof.
  revert st. induction stmts as [|d stmts IH]; intros st Hok.
  - exists st. rewrite app_nil_r. repeat split; reflexivity.
  - cbn [for_each]. unfold bind at 1, execute_ddl at 1. run_script.
    rewrite (Hok d (list_elem_of_here _ _)). simpl.
    match goal with
    | |- context [for_each stmts (execute_ddl w) ?s] =>
        destruct (IH s) as (st' & Hrun & He & Hm & Hs & Hf & Hd)
    end.
    { intros d' Hd'. apply Hok, list_elem_of_further, Hd'. }
    exists st'. split; [exact Hrun|].
    rewrite He, Hm, Hs, Hf, Hd. unfold executed. simpl. rewrite !omap_app. simpl.
    rewrite app_nil_r, <- app_assoc. repeat split; reflexivity.
Qed.

Lemma connect_mssql_ok (st : State) :
  connect_mssql w st
  = (Ret tt,
     {| trace := trace st ++ [EPrint MConnectedMssql]; mssql_open := true;
        sf_open := sf_open st; files := files st;
        sf_ddl_statements := sf_ddl_statements st |}).
Proof.
  unfold connect_mssql. run_script. rewrite Hconnect. simpl. rewrite Hcursor.
  reflexivity.
Qed.

Lemma connect_snowflake_ok (st : State) :
  connect_snowflake w st
  = (Ret tt,
     {| trace := trace st ++ [EPrint MConnectedSnowflake]; mssql_open := mssql_open st;
        sf_open := true; files := files st;
        sf_ddl_statements := sf_ddl_statements st |}).
Proof.
  unfold connect_snowflake. run_script. rewrite Hsf. simpl. rewrite Hsfcursor.
  reflexivity.
Qed.

Lemma run_all_succeed_state :
  exists st,
    run w = (Ret tt, st)
    /\ sf_ddl_statements st
       = map (fun '(schema, table) =>
                ddl (snowflake_config w) table (cols_of schema table)) tables
    /\ executed st
       = (map (fun '(schema, table) =>
                 ddl (snowflake_config w) table (cols_of schema table)) tables
          ++ flat_map (fun '(schema, table) => load_commands w schema table) tables)%list
    /\ (forall p, is_Some (files st !! p) <->
                  exists schema table,
                    (schema, table) ∈ tables /\ p = table_path schema table)
    /\ mssql_open st = false
    /\ sf_open st = false.
Proof.
  unfold run, main.
  assert (H0 : call (os_makedirs w) init = (Ret tt, init))
    by (rewrite Hmakedirs; reflexivity).
  rewrite (bind_step _ _ _ _ _ H0), (bind_step _ _ _ _ _ (connect_mssql_ok init)).
  match goal with
  | |- context [bind (call_val (cursor_fetchall w)) _ ?s0] =>
      assert (H1 : call_val (cursor_fetchall w) s0 = (Ret tables, s0))
        by (rewrite Htables; reflexivity);
      rewrite (bind_step _ _ _ _ _ H1);
      destruct (print_loop tables s0) as (st1 & Hrun1 & He1 & Hm1 & Hs1 & Hf1 & Hd1)
  end.
  rewrite (bind_step _ _ _ _ _ Hrun1).
  rewrite (bind_step _ _ _ _ _ (export_loop tables st1 (fun x H => H))).
  destruct (export_all_facts (snowflake_config w) cols_of data_of tables st1)
    as (He2 & Hm2 & Hs2 & Hd2 & Hf2).
  set (st2 := export_all (snowflake_config w) cols_of data_of tables st1) in *.
  rewrite (bind_step _ _ _ _ _ (connect_snowflake_ok st2)).
  unfold bind at 1, get_ddl_statements at 1. cbn [sf_ddl_statements].
  assert (Hok : forall d, d ∈ sf_ddl_statements st2 -> sf_execute w d = None).
  { intros d Hd. rewrite Hd2, Hd1 in Hd. simpl in Hd.
    apply list_elem_of_fmap in Hd as ([s t] & -> & Hin).
    apply Hddl. exact Hin. }
  match goal with
  | |- context [bind (for_each ?stmts (execute_ddl w)) _ ?s0] =>
      destruct (ddl_loop stmts s0 Hok) as (st3 & Hrun3 & He3 & Hm3 & Hs3 & Hf3 & Hd3)
  end.
  rewrite (bind_step _ _ _ _ _ Hrun3).
  pose proof (load_loop_facts w tables st3) as (Hr4 & He4 & Hm4 & Hs4 & Hf4 & Hd4).
  destruct (for_each tables (fun '(schema, table) => load_table w schema table) st3)
    as [o st4] eqn:Hrun4.
  cbn [fst snd] in *. subst o. rewrite (bind_step _ _ _ _ _ Hrun4).
  unfold cleanup. run_script. eexists. split; [reflexivity|].
  unfold executed in *. simpl in *. rewrite !omap_app in *. simpl in *.
  rewrite app_nil_r in *.
  rewrite Hd4, Hd3, He4, He3, He2, He1, Hf4, Hf3, !Hd2, !Hd1. simpl.
  repeat split; try reflexivity.
  - intros H. apply Hf2 in H as [H|H]; [|exact H].
    rewrite Hf1, lookup_empty in H. destruct H as [? H]. discriminate H.
  - intros H. apply Hf2. right. exact H.
Qed.

(** X10.  When every external call of the export and of the DDL loop
    succeeds, the run ends normally: it has collected and executed one
    DDL statement per table in discovery order, then sent for each table
    its PUT and, when that succeeded, its COPY; it has written exactly
    the files of the discovered tables and closed both connections. *)
Theorem run_all_succeed :
  (run w).1 = Ret tt
  /\ sf_ddl_statements (run w).2
     = map (fun '(schema, table) => ddl (snowflake_config w) table (cols_of schema table))
         tables
  /\ executed (run w).2
     = (map (fun '(schema, table) =>
               ddl (snowflake_config w) table (cols_of schema table)) tables
        ++ flat_map (fun '(schema, table) => load_commands w schema table) tables)%list
  /\ (forall p, is_Some (files (run w).2 !! p) <->
                exists schema table, (schema, table) ∈ tables /\ p = table_path schema table)
  /\ mssql_open (run w).2 = false
  /\ sf_open (run w).2 = false.
Proof.
  destruct run_all_succeed_state as (st & -> & H). split; [reflexivity | exact H].
Qed.

End AllSucceed.

Lemma run_all_succeed_witness :
  (run all_fine).1 = Ret tt
  /\ sf_ddl_statements (run all_fine).2
     = [ddl sch_config "A" one_column; ddl sch_config "B" one_column].
Proof.
  assert (H := run_all_succeed all_fine two_tables (fun _ _ => one_column)
                 (fun _ _ => one_column_frame) eq_refl eq_refl eq_refl eq_refl
                 (fun _ _ _ => eq_refl) (fun _ _ _ => eq_refl) (fun _ _ _ => eq_refl)
                 (fun _ _ _ => eq_refl) eq_refl eq_refl (fun _ _ _ => eq_refl)).
  destruct H as (Hret & Hddl & _). split; [exact Hret | exact Hddl].
Defined.

(** ** The order of events in every run *)

Section Appends.

Variable P : event -> Prop.

Lemma appends_ret {A} (a : A) : appends P (ret a).
Proof. intros st. exists []. rewrite app_nil_r. split; [reflexivity | constructor]. Qed.

Lemma appends_raise {A} (e : exn) : appends P (@raise A e).
Proof. intros st. exists []. rewrite app_nil_r. split; [reflexivity | constructor]. Qed.

Lemma appends_exit {A} (c : nat) : appends P (@exit A c).
Proof. intros st. exists []. rewrite app_nil_r. split; [reflexivity | constructor]. Qed.

Lemma appends_call (r : option exn) : appends P (call r).
Proof. destruct r; [apply appends_raise | apply appends_ret]. Qed.

Lemma appends_call_val {A} (r : exn + A) : appends P (call_val r).
Proof. destruct r; [apply appends_raise | apply appends_ret]. Qed.

Lemma appends_emit (e : event) : P e -> appends P (emit e).
Proof. intros He st. exists [e]. split; [reflexivity | repeat constructor; exact He]. Qed.

Lemma appends_quiet (f : State -> State) :
  (forall st, trace (f st) = trace st) -> appends P (modify f).
Proof.
  intros Hf st. exists []. rewrite app_nil_r. split; [apply Hf | constructor].
Qed.

Lemma appends_get : appends P get_ddl_statements.
Proof. intros st. exists []. rewrite app_nil_r. split; [reflexivity | constructor]. Qed.

Lemma appends_bind {A B} (m : M A) (k : A -> M B) :
  appends P m -> (forall a, appends P (k a)) -> appends P (bind m k).
Proof.
  intros Hm Hk st. unfold bind. destruct (Hm st) as (t & Ht & HP).
  destruct (m st) as [[a|e|c] st1]; simpl in Ht.
  - destruct (Hk a st1) as (t' & Ht' & HP'). exists (t ++ t')%list.
    rewrite Ht', Ht, app_assoc. split; [reflexivity | apply Forall_app; split; assumption].
  - exists t. split; assumption.
  - exists t. split; assumption.
Qed.

Lemma appends_try_except {A} (m : M A) (catches : exn -> bool) (h : exn -> M A) :
  appends P m -> (forall e, appends P (h e)) -> appends P (try_except m catches h).
Proof.
  intros Hm Hh st. unfold try_except. destruct (Hm st) as (t & Ht & HP).
  destruct (m st) as [[a|e|c] st1]; simpl in Ht.
  - exists t. split; assumption.
  - destruct (catches e).
    + destruct (Hh e st1) as (t' & Ht' & HP'). exists (t ++ t')%list.
      rewrite Ht', Ht, app_assoc.
      split; [reflexivity | apply Forall_app; split; assumption].
    + exists t. split; assumption.
  - exists t. split; assumption.
Qed.

Lemma appends_for_each {A} (l : list A) (body : A -> M unit) :
  (forall x, appends P (body x)) -> appends P (for_each l body).
Proof.
  intros Hb. induction l as [|x l IH]; simpl.
  - apply appends_ret.
  - apply appends_bind; [apply Hb | intros _; exact IH].
Qed.

End Appends.

Ltac appends_step :=
  first
    [ apply appends_bind; [|intros ?]
    | apply appends_try_except; [|intros ?]
    | apply appends_for_each; intros [? ?]
    | apply appends_for_each; intros ?
    | apply appends_ret
    | apply appends_exit
    | apply appends_raise
    | apply appends_call
    | apply appends_call_val
    | apply appends_get
    | apply appends_emit; first [reflexivity | discriminate]
    | apply appends_quiet; intros ?; reflexivity ].

Ltac appends_auto :=
  unfold print, set_mssql, set_sf, store_file, append_ddl; repeat appends_step.

Section TraceSteps.

Variable w : World.

Lemma process_table_no_execute (schema table : string) :
  appends (fun e => is_execute e = false) (process_table w schema table).
Proof.
  unfold process_table. appends_auto.
  destruct (any (duplicated (columns _))); appends_auto.
Qed.

Lemma connect_snowflake_no_source_io :
  appends (fun e => is_source_io e = false) (connect_snowflake w).
Proof. unfold connect_snowflake. appends_auto. Qed.

Lemma execute_ddl_no_source_io (stmt : string) :
  appends (fun e => is_source_io e = false) (execute_ddl w stmt).
Proof. unfold execute_ddl. appends_auto. Qed.

Lemma load_table_no_source_io (schema table : string) :
  appends (fun e => is_source_io e = false) (load_table w schema table).
Proof.
  unfold load_table. cbv zeta. appends_auto.
  match goal with |- appends _ (if ?b then _ else _) => destruct b end; appends_auto.
Qed.

End TraceSteps.

Lemma two_phases_first {A B} (m : M A) (k : A -> M B) :
  appends (fun e => is_execute e = false) m ->
  (forall a, two_phases (k a)) ->
  two_phases (bind m k).
Proof.
  intros Hm Hk st. unfold bind. destruct (Hm st) as (t & Ht & HP).
  destruct (m st) as [[a|e|c] st1]; simpl in Ht.
  - destruct (Hk a st1) as (t1 & t2 & Ht' & HP1 & HP2). exists (t ++ t1)%list, t2.
    rewrite Ht', Ht, <- !app_assoc.
    split; [reflexivity|]. split; [apply Forall_app; split; assumption | exact HP2].
  - exists t, []. rewrite app_nil_r. repeat split; [exact Ht | exact HP | constructor].
  - exists t, []. rewrite app_nil_r. repeat split; [exact Ht | exact HP | constructor].
Qed.

Lemma two_phases_second {A} (m : M A) :
  appends (fun e => is_source_io e = false) m -> two_phases m.
Proof.
  intros Hm st. destruct (Hm st) as (t & Ht & HP). exists [], t.
  repeat split; [exact Ht | constructor | exact HP].
Qed.

(** X11.  In every run, whatever fails, the trace is a part without
    Snowflake commands followed by a part without source queries and
    file writes: no command is sent to Snowflake before the export of
    the last table has ended, and nothing is read from MSSQL or written
    to disk after the first command. *)
Theorem exports_before_commands (w : World) :
  exists t1 t2,
    trace (run w).2 = (t1 ++ t2)%list
    /\ Forall (fun e => is_execute e = false) t1
    /\ Forall (fun e => is_source_io e = false) t2.
Proof.
  assert (H : two_phases (main w)).
  { unfold main.
    apply two_phases_first; [appends_auto | intros _].
    apply two_phases_first; [unfold connect_mssql; appends_auto | intros _].
    apply two_phases_first; [appends_auto | intros tables].
    apply two_phases_first; [appends_auto | intros _].
    apply two_phases_first;
      [apply appends_for_each; intros [s t]; apply process_table_no_execute | intros _].
    apply two_phases_second.
    apply appends_bind; [apply connect_snowflake_no_source_io | intros _].
    apply appends_bind; [apply appends_get | intros stmts].
    apply appends_bind;
      [apply appends_for_each; intros d; apply execute_ddl_no_source_io | intros _].
    apply appends_bind;
      [apply appends_for_each; intros [s t]; apply load_table_no_source_io | intros _].
    unfold cleanup. appends_auto. }
  destruct (H init) as (t1 & t2 & Ht & H1 & H2). exists t1, t2.
  split; [exact Ht|]. split; assumption.
Qed.

Lemma done_last_bind {A} (m : M A) (k : A -> M unit) :
  appends (fun e => e <> EPrint MAllDone) m ->
  (forall a, done_last (k a)) ->
  done_last (bind m k).
Proof.
  intros Hm Hk st. unfold bind. destruct (Hm st) as (t & Ht & HP).
  destruct (m st) as [[a|e|c] st1]; simpl in Ht.
  - destruct (Hk a st1) as (t' & HP' & Hcase). exists (t ++ t')%list.
    split; [apply Forall_app; split; assumption|].
    rewrite Ht in Hcase. rewrite <- !app_assoc. rewrite <- !app_assoc in Hcase.
    exact Hcase.
  - exists t. split; [exact HP|]. right. split; [discriminate | exact Ht].
  - exists t. split; [exact HP|]. right. split; [discriminate | exact Ht].
Qed.

Lemma done_last_print : done_last (print MAllDone).
Proof.
  intros st. exists []. split; [constructor|]. left. split; reflexivity.
Qed.

(** X12.  The final message is printed exactly when the run returns
    normally, and then it is the last event: a run that exits or ends
    with an exception has it nowhere in its output. *)
Theorem all_done_iff_normal (w : World) :
  (last (trace (run w).2) = Some (EPrint MAllDone) <-> (run w).1 = Ret tt)
  /\ (EPrint MAllDone ∈ trace (run w).2 <-> (run w).1 = Ret tt).
Proof.
  assert (H : done_last (main w)).
  { unfold main.
    apply done_last_bind; [appends_auto | intros _].
    apply done_last_bind; [unfold connect_mssql; appends_auto | intros _].
    apply done_last_bind; [appends_auto | intros tables].
    apply done_last_bind; [appends_auto | intros _].
    apply done_last_bind.
    { apply appends_for_each. intros [s t]. unfold process_table. appends_auto.
      destruct (any (duplicated (columns _))); appends_auto. }
    intros _.
    apply done_last_bind; [unfold connect_snowflake; appends_auto | intros _].
    apply done_last_bind; [appends_auto | intros stmts].
    apply done_last_bind; [unfold execute_ddl; appends_auto | intros _].
    apply done_last_bind.
    { apply appends_for_each. intros [s t]. unfold load_table. cbv zeta. appends_auto.
      match goal with |- appends _ (if ?b then _ else _) => destruct b end;
        appends_auto. }
    intros _.
    apply done_last_bind; [unfold cleanup; appends_auto | intros _].
    apply done_last_print. }
  unfold run. destruct (H init) as (t & HP & [[Hret Ht]|[Hnot Ht]]); rewrite Ht; simpl.
  - split; (split; [intros _; exact Hret|]); intros _.
    + apply last_snoc.
    + apply elem_of_app. right. apply list_elem_of_here.
  - split; (split; [|intros Hret; contradiction]).
    + intros Hlast. apply last_Some in Hlast as (t' & ->).
      apply Forall_app in HP as [_ HP]. apply Forall_cons in HP as [HP _].
      contradiction HP. reflexivity.
    + intros Hin. rewrite Forall_forall in HP. contradiction (HP _ Hin). reflexivity.
Qed.

(** X13.  A run that returns normally has closed both connections. *)
Theorem normal_run_closes_connections (w : World) (st : State) :
  run w = (Ret tt, st) -> mssql_open st = false /\ sf_open st = false.
Proof.
  unfold run, main. intros H.
  do 9 (apply bind_Ret_inv in H as (? & ? & _ & H)).
  unfold cleanup, bind, set_mssql, set_sf, print, emit, modify in H. simpl in H.
  injection H as <-.
  split; reflexivity.
Qed.

Lemma normal_run_closes_connections_witness :
  mssql_open (run all_fine).2 = false /\ sf_open (run all_fine).2 = false.
Proof.
  apply (normal_run_closes_connections all_fine (run all_fine).2).
  vm_compute. reflexivity.
Defined.
